(** * Verbi: the configuration registry and its validation routine

    A shallow embedding of [voice_assistant/config.py].  The class [Config]
    is a namespace of class attributes, read by name with [getattr]; the
    validation routine is a straight line of twelve checks, each of which
    may raise a [ValueError].  The class object is a shared, mutable store,
    so the routine is embedded in a state-and-exception monad over the
    registry: the state survives an exception, as it does in Python. *)

From Stdlib Require Import String Ascii List Bool ZArith Lia.
From ExtLib Require Import Structures.Monad Structures.MonadState Structures.MonadExc.
From ExtLib Require Import Data.Monads.StateMonad Data.Monads.EitherMonad.
Import ListNotations.
Import MonadNotation.
Local Open Scope string_scope.
Local Open Scope monad_scope.

(** ** Python values held by the class attributes *)

Inductive value : Type :=
| VNone
| VStr (s : string)
| VInt (n : Z).

(** Python's [==] on the values above. *)
Definition py_eq (a b : value) : bool :=
  match a, b with
  | VNone, VNone => true
  | VStr s, VStr t => String.eqb s t
  | VInt m, VInt n => Z.eqb m n
  | _, _ => false
  end.

(** Python's truth value: [None], the empty string and [0] are false. *)
Definition truthy (v : value) : bool :=
  match v with
  | VNone => false
  | VStr s => negb (String.eqb s EmptyString)
  | VInt n => negb (Z.eqb n 0)
  end.

(** [x in xs] for a list: the first element equal to [x] decides. *)
Definition py_in (x : value) (xs : list value) : bool :=
  existsb (py_eq x) xs.

(** An attribute read from the environment: a string, or [None]. *)
Definition of_env (o : option string) : value :=
  match o with
  | Some s => VStr s
  | None => VNone
  end.

(** ** The registry: the attributes of class [Config] *)

Record Config : Type := mkConfig {
  TRANSCRIPTION_MODEL : string;
  RESPONSE_MODEL : string;
  TTS_MODEL : string;
  PIPER_SERVER_URL : option string;
  PIPER_OUTPUT_FILE : string;
  OLLAMA_LLM : string;
  GROQ_LLM : string;
  OPENAI_LLM : string;
  OPENAI_API_KEY : option string;
  GROQ_API_KEY : option string;
  DEEPGRAM_API_KEY : option string;
  ELEVENLABS_API_KEY : option string;
  LOCAL_MODEL_PATH : option string;
  CARTESIA_API_KEY : option string;
  TTS_PORT_LOCAL : Z;
  INPUT_AUDIO : string
}.

(** The process environment, after [load_dotenv()] has merged the .env
    file into it: a list of bindings, the first binding of a name wins. *)
Definition environ : Type := list (string * string).

(** [os.getenv(name)]: [None] when the variable is not set. *)
Fixpoint getenv (env : environ) (name : string) : option string :=
  match env with
  | [] => None
  | (k, v) :: rest => if String.eqb name k then Some v else getenv rest name
  end.

(** The class body, run once at import: constants and [os.getenv] reads. *)
Definition load (env : environ) : Config :=
  {| TRANSCRIPTION_MODEL := "deepgram";
     RESPONSE_MODEL := "openai";
     TTS_MODEL := "openai";
     PIPER_SERVER_URL := getenv env "PIPER_SERVER_URL";
     PIPER_OUTPUT_FILE := "output.wav";
     OLLAMA_LLM := "llama3:8b";
     GROQ_LLM := "llama3-8b-8192";
     OPENAI_LLM := "gpt-4o";
     OPENAI_API_KEY := getenv env "OPENAI_API_KEY";
     GROQ_API_KEY := getenv env "GROQ_API_KEY";
     DEEPGRAM_API_KEY := getenv env "DEEPGRAM_API_KEY";
     ELEVENLABS_API_KEY := getenv env "ELEVENLABS_API_KEY";
     LOCAL_MODEL_PATH := getenv env "LOCAL_MODEL_PATH";
     CARTESIA_API_KEY := getenv env "CARTESIA_API_KEY";
     TTS_PORT_LOCAL := 5150;
     INPUT_AUDIO := "test.mp3" |}.

(** The attribute table of the class: name to current value. *)
Definition attributes (c : Config) : list (string * value) :=
  [ ("TRANSCRIPTION_MODEL", VStr (TRANSCRIPTION_MODEL c));
    ("RESPONSE_MODEL", VStr (RESPONSE_MODEL c));
    ("TTS_MODEL", VStr (TTS_MODEL c));
    ("PIPER_SERVER_URL", of_env (PIPER_SERVER_URL c));
    ("PIPER_OUTPUT_FILE", VStr (PIPER_OUTPUT_FILE c));
    ("OLLAMA_LLM", VStr (OLLAMA_LLM c));
    ("GROQ_LLM", VStr (GROQ_LLM c));
    ("OPENAI_LLM", VStr (OPENAI_LLM c));
    ("OPENAI_API_KEY", of_env (OPENAI_API_KEY c));
    ("GROQ_API_KEY", of_env (GROQ_API_KEY c));
    ("DEEPGRAM_API_KEY", of_env (DEEPGRAM_API_KEY c));
    ("ELEVENLABS_API_KEY", of_env (ELEVENLABS_API_KEY c));
    ("LOCAL_MODEL_PATH", of_env (LOCAL_MODEL_PATH c));
    ("CARTESIA_API_KEY", of_env (CARTESIA_API_KEY c));
    ("TTS_PORT_LOCAL", VInt (TTS_PORT_LOCAL c));
    ("INPUT_AUDIO", VStr (INPUT_AUDIO c)) ].

Fixpoint assoc (name : string) (l : list (string * value)) : option value :=
  match l with
  | [] => None
  | (k, v) :: rest => if String.eqb name k then Some v else assoc name rest
  end.

(** ** Exceptions and the monad of the class methods *)

Inductive exn : Type :=
| ValueError (msg : string)
| AttributeError (name : string).

(** A computation reads and may write the registry and ends in a value or
    in an exception; the registry is returned in both cases. *)
Definition M : Type -> Type := eitherT exn (state Config).

Definition run {A : Type} (m : M A) (c : Config) : (exn + A) * Config :=
  runState (unEitherT m) c.

(** [getattr(Config, name)] *)
Definition getattr (name : string) : M value :=
  c <- get ;;
  match assoc name (attributes c) with
  | Some v => ret v
  | None => raise (AttributeError name)
  end.

(** ** Formatting *)

(** [repr] of a string without quote, backslash or control character, which
    is what every literal of the option lists is. *)
Definition repr_str (s : string) : string := "'" ++ s ++ "'".

Fixpoint join (sep : string) (l : list string) : string :=
  match l with
  | [] => EmptyString
  | [x] => x
  | x :: rest => x ++ sep ++ join sep rest
  end.

(** [str] of a list of strings, as an f-string field renders it. *)
Definition str_list (l : list string) : string :=
  "[" ++ join ", " (map repr_str l) ++ "]".

(** ** The methods of [Config] *)

Definition _validate_model (attribute : string) (valid_options : list string) : M unit :=
  model <- getattr attribute ;;
  if negb (py_in model (map VStr valid_options)) then
    raise (ValueError ("Invalid " ++ attribute ++ ". Must be one of "
                         ++ str_list valid_options))
  else ret tt.

(** [a and b] evaluates [b] only when [a] is true: the credential is read
    only when the selection matches. *)
Definition _validate_api_key (model_attr model_value api_key_attr : string) : M unit :=
  selected <- getattr model_attr ;;
  missing <- (if py_eq selected (VStr model_value)
              then key <- getattr api_key_attr ;; ret (negb (truthy key))
              else ret false) ;;
  if missing then
    raise (ValueError (api_key_attr ++ " is required for " ++ model_value ++ " models"))
  else ret tt.

Definition validate_config : M unit :=
  _validate_model "TRANSCRIPTION_MODEL"
    ["openai"; "groq"; "deepgram"; "fastwhisperapi"; "local"] ;;
  _validate_model "RESPONSE_MODEL"
    ["openai"; "groq"; "ollama"; "local"] ;;
  _validate_model "TTS_MODEL"
    ["openai"; "deepgram"; "elevenlabs"; "melotts"; "cartesia"; "local"; "piper"] ;;

  _validate_api_key "TRANSCRIPTION_MODEL" "openai" "OPENAI_API_KEY" ;;
  _validate_api_key "TRANSCRIPTION_MODEL" "groq" "GROQ_API_KEY" ;;
  _validate_api_key "TRANSCRIPTION_MODEL" "deepgram" "DEEPGRAM_API_KEY" ;;

  _validate_api_key "RESPONSE_MODEL" "openai" "OPENAI_API_KEY" ;;
  _validate_api_key "RESPONSE_MODEL" "groq" "GROQ_API_KEY" ;;

  _validate_api_key "TTS_MODEL" "openai" "OPENAI_API_KEY" ;;
  _validate_api_key "TTS_MODEL" "deepgram" "DEEPGRAM_API_KEY" ;;
  _validate_api_key "TTS_MODEL" "elevenlabs" "ELEVENLABS_API_KEY" ;;
  _validate_api_key "TTS_MODEL" "cartesia" "CARTESIA_API_KEY".

(** Methods that leave the registry as they found it. *)
Definition read_only {A : Type} (m : M A) : Prop :=
  forall c, snd (run m c) = c.

(** ** The validation rules as a table

    The routine above is twelve calls in a row.  The same content as data:
    three provider-selection fields with their domains, and nine rules
    (field, provider value, credential). *)

Inductive field : Type := Transcription | Response | Tts.

Inductive credential : Type := OpenAI | Groq | Deepgram | ElevenLabs | Cartesia.

Definition fields : list field := [Transcription; Response; Tts].

(** Position of a field in declaration order. *)
Definition field_index (f : field) : nat :=
  match f with
  | Transcription => 0
  | Response => 1
  | Tts => 2
  end.

Definition field_name (f : field) : string :=
  match f with
  | Transcription => "TRANSCRIPTION_MODEL"
  | Response => "RESPONSE_MODEL"
  | Tts => "TTS_MODEL"
  end.

Definition selection (c : Config) (f : field) : string :=
  match f with
  | Transcription => TRANSCRIPTION_MODEL c
  | Response => RESPONSE_MODEL c
  | Tts => TTS_MODEL c
  end.

Definition domain (f : field) : list string :=
  match f with
  | Transcription => ["openai"; "groq"; "deepgram"; "fastwhisperapi"; "local"]
  | Response => ["openai"; "groq"; "ollama"; "local"]
  | Tts => ["openai"; "deepgram"; "elevenlabs"; "melotts"; "cartesia"; "local"; "piper"]
  end.

Definition credential_name (k : credential) : string :=
  match k with
  | OpenAI => "OPENAI_API_KEY"
  | Groq => "GROQ_API_KEY"
  | Deepgram => "DEEPGRAM_API_KEY"
  | ElevenLabs => "ELEVENLABS_API_KEY"
  | Cartesia => "CARTESIA_API_KEY"
  end.

Definition credential_value (c : Config) (k : credential) : option string :=
  match k with
  | OpenAI => OPENAI_API_KEY c
  | Groq => GROQ_API_KEY c
  | Deepgram => DEEPGRAM_API_KEY c
  | ElevenLabs => ELEVENLABS_API_KEY c
  | Cartesia => CARTESIA_API_KEY c
  end.

(** A credential is present when it is set and not the empty string. *)
Definition present (c : Config) (k : credential) : bool :=
  match credential_value c k with
  | Some s => negb (String.eqb s EmptyString)
  | None => false
  end.

Definition rule : Type := (field * string * credential)%type.

Definition rules : list rule :=
  [ (Transcription, "openai", OpenAI);
    (Transcription, "groq", Groq);
    (Transcription, "deepgram", Deepgram);
    (Response, "openai", OpenAI);
    (Response, "groq", Groq);
    (Tts, "openai", OpenAI);
    (Tts, "deepgram", Deepgram);
    (Tts, "elevenlabs", ElevenLabs);
    (Tts, "cartesia", Cartesia) ].

Definition rule_field (r : rule) : field := fst (fst r).
Definition rule_provider (r : rule) : string := snd (fst r).
Definition rule_credential (r : rule) : credential := snd r.

(** The two errors of the routine.  Both are [ValueError]s in the source,
    told apart by their message. *)
Definition InvalidProviderSelection (f : field) : exn :=
  ValueError ("Invalid " ++ field_name f ++ ". Must be one of " ++ str_list (domain f)).

Definition MissingCredential (credentialName requiringProviderValue : string) : exn :=
  ValueError (credentialName ++ " is required for " ++ requiringProviderValue ++ " models").

Definition rule_error (r : rule) : exn :=
  MissingCredential (credential_name (rule_credential r)) (rule_provider r).

Definition in_domain (c : Config) (f : field) : Prop :=
  In (selection c f) (domain f).

Definition in_domainb (c : Config) (f : field) : bool :=
  existsb (String.eqb (selection c f)) (domain f).

(** A rule applies when its field selects its provider value, and is
    violated when it applies while its credential is not present. *)
Definition applies (c : Config) (r : rule) : Prop :=
  selection c (rule_field r) = rule_provider r.

Definition violated (c : Config) (r : rule) : Prop :=
  applies c r /\ present c (rule_credential r) = false.

Definition violatedb (c : Config) (r : rule) : bool :=
  String.eqb (selection c (rule_field r)) (rule_provider r)
  && negb (present c (rule_credential r)).

(** The twelve checks in the order of the spec: every domain check, then
    every rule. *)
Inductive check : Type :=
| DomainCheck (f : field)
| CredentialCheck (r : rule).

Definition checks : list check :=
  map DomainCheck fields ++ map CredentialCheck rules.

Definition check_error (c : Config) (ch : check) : option exn :=
  match ch with
  | DomainCheck f =>
      if in_domainb c f then None else Some (InvalidProviderSelection f)
  | CredentialCheck r =>
      if violatedb c r then Some (rule_error r) else None
  end.

(** Fail fast: the error of the first check that fails, if any. *)
Fixpoint first_error (c : Config) (l : list check) : option exn :=
  match l with
  | [] => None
  | ch :: rest =>
      match check_error c ch with
      | Some e => Some e
      | None => first_error c rest
      end
  end.

Definition outcome (o : option exn) : exn + unit :=
  match o with
  | Some e => inl e
  | None => inr tt
  end.

(** The first field, in declaration order, whose value is out of domain,
    and the first violated rule of the table. *)
Definition first_invalid (c : Config) : option field :=
  find (fun f => negb (in_domainb c f)) fields.

Definition first_violated (c : Config) : option rule :=
  find (violatedb c) rules.

(** The call that the source makes for a check, and the calls for a list
    of checks, one after the other. *)
Definition perform (ch : check) : M unit :=
  match ch with
  | DomainCheck f => _validate_model (field_name f) (domain f)
  | CredentialCheck r =>
      _validate_api_key (field_name (rule_field r)) (rule_provider r)
        (credential_name (rule_credential r))
  end.

Fixpoint perform_all (l : list check) : M unit :=
  match l with
  | [] => ret tt
  | [ch] => perform ch
  | ch :: rest => perform ch ;; perform_all rest
  end.

(** ** What an error message says *)

Fixpoint starts_with (s t : string) : bool :=
  match s, t with
  | EmptyString, _ => true
  | String a s', String b t' => Ascii.eqb a b && starts_with s' t'
  | String _ _, EmptyString => false
  end.

(** Whether a text occurs in another, and in the message of an exception. *)
Fixpoint occurs (s t : string) : bool :=
  starts_with s t ||
  match t with
  | EmptyString => false
  | String _ t' => occurs s t'
  end.

Definition mentions (e : exn) (s : string) : bool :=
  match e with
  | ValueError msg => occurs s msg
  | AttributeError name => occurs s name
  end.

(** ** Registries to compare and to run on *)

(** Two registries with the same three selections and the same five
    credentials. *)
Definition same_inputs (c c' : Config) : Prop :=
  TRANSCRIPTION_MODEL c = TRANSCRIPTION_MODEL c'
  /\ RESPONSE_MODEL c = RESPONSE_MODEL c'
  /\ TTS_MODEL c = TTS_MODEL c'
  /\ OPENAI_API_KEY c = OPENAI_API_KEY c'
  /\ GROQ_API_KEY c = GROQ_API_KEY c'
  /\ DEEPGRAM_API_KEY c = DEEPGRAM_API_KEY c'
  /\ ELEVENLABS_API_KEY c = ELEVENLABS_API_KEY c'
  /\ CARTESIA_API_KEY c = CARTESIA_API_KEY c'.

(** Assignments to the three selections, as a test does before it calls
    the routine. *)
Definition with_models (t r s : string) (c : Config) : Config :=
  {| TRANSCRIPTION_MODEL := t;
     RESPONSE_MODEL := r;
     TTS_MODEL := s;
     PIPER_SERVER_URL := PIPER_SERVER_URL c;
     PIPER_OUTPUT_FILE := PIPER_OUTPUT_FILE c;
     OLLAMA_LLM := OLLAMA_LLM c;
     GROQ_LLM := GROQ_LLM c;
     OPENAI_LLM := OPENAI_LLM c;
     OPENAI_API_KEY := OPENAI_API_KEY c;
     GROQ_API_KEY := GROQ_API_KEY c;
     DEEPGRAM_API_KEY := DEEPGRAM_API_KEY c;
     ELEVENLABS_API_KEY := ELEVENLABS_API_KEY c;
     LOCAL_MODEL_PATH := LOCAL_MODEL_PATH c;
     CARTESIA_API_KEY := CARTESIA_API_KEY c;
     TTS_PORT_LOCAL := TTS_PORT_LOCAL c;
     INPUT_AUDIO := INPUT_AUDIO c |}.

(** Assignments to the attributes that no check names. *)
Definition with_auxiliary (url path : option string) (out l1 l2 l3 : string)
    (port : Z) (audio : string) (c : Config) : Config :=
  {| TRANSCRIPTION_MODEL := TRANSCRIPTION_MODEL c;
     RESPONSE_MODEL := RESPONSE_MODEL c;
     TTS_MODEL := TTS_MODEL c;
     PIPER_SERVER_URL := url;
     PIPER_OUTPUT_FILE := out;
     OLLAMA_LLM := l1;
     GROQ_LLM := l2;
     OPENAI_LLM := l3;
     OPENAI_API_KEY := OPENAI_API_KEY c;
     GROQ_API_KEY := GROQ_API_KEY c;
     DEEPGRAM_API_KEY := DEEPGRAM_API_KEY c;
     ELEVENLABS_API_KEY := ELEVENLABS_API_KEY c;
     LOCAL_MODEL_PATH := path;
     CARTESIA_API_KEY := CARTESIA_API_KEY c;
     TTS_PORT_LOCAL := port;
     INPUT_AUDIO := audio |}.

Definition with_piper_server_url (url : option string) (c : Config) : Config :=
  with_auxiliary url (LOCAL_MODEL_PATH c) (PIPER_OUTPUT_FILE c) (OLLAMA_LLM c)
    (GROQ_LLM c) (OPENAI_LLM c) (TTS_PORT_LOCAL c) (INPUT_AUDIO c) c.

Definition no_env : environ := [].

Definition two_keys_env : environ :=
  [ ("OPENAI_API_KEY", "sk-test"); ("DEEPGRAM_API_KEY", "dg-test") ].

Definition all_keys_env : environ :=
  [ ("OPENAI_API_KEY", "sk-test"); ("GROQ_API_KEY", "gsk-test");
    ("DEEPGRAM_API_KEY", "dg-test"); ("ELEVENLABS_API_KEY", "el-test");
    ("CARTESIA_API_KEY", "ca-test") ].

(** The response comes from 'groq' and GROQ_API_KEY is not set: the fifth
    rule is the first violated one. *)
Definition groq_response_no_key : Config :=
  with_models "deepgram" "groq" "openai" (load two_keys_env).

(** Transcription by 'openai', every credential unset. *)
Definition openai_transcription_no_key : Config :=
  with_models "openai" "ollama" "piper" (load no_env).

(** The transcription selection is out of domain; a second state differs
    from the first in that value only. *)
Definition azure_transcription : Config :=
  with_models "azure" "openai" "openai" (load all_keys_env).

Definition bedrock_transcription : Config :=
  with_models "bedrock" "openai" "openai" (load all_keys_env).

(** Two violations at once: the speech selection is out of domain and the
    transcription rule for 'deepgram' lacks its credential. *)
Definition bad_tts_no_keys : Config :=
  with_models "deepgram" "openai" "espeak" (load no_env).

Definition elevenlabs_no_key : Config :=
  with_models "deepgram" "openai" "elevenlabs" (load two_keys_env).

Definition all_local_no_keys : Config :=
  with_models "local" "local" "local" (load no_env).

Definition piper_setup : Config :=
  with_models "deepgram" "openai" "piper" (load two_keys_env).

(** ** Further notions for the helpers and the class body *)

(** The last character of a text, if it has one. *)
Fixpoint last_char (s : string) : option ascii :=
  match s with
  | EmptyString => None
  | String a rest =>
      match last_char rest with
      | Some b => Some b
      | None => Some a
      end
  end.

(** An environment variable that is set to a non-empty text. *)
Definition env_has (env : environ) (name : string) : bool :=
  match getenv env name with
  | Some s => negb (String.eqb s EmptyString)
  | None => false
  end.

(** For a rule, a registry with no credential at all in which the field
    of the rule selects its provider value and the other two fields are
    'local'. *)
Definition trigger (r : rule) : Config :=
  with_models
    (match rule_field r with Transcription => rule_provider r | _ => "local" end)
    (match rule_field r with Response => rule_provider r | _ => "local" end)
    (match rule_field r with Tts => rule_provider r | _ => "local" end)
    (load no_env).

(** Transcription by 'openai' and response by 'openai', each alone and
    without any credential. *)
Definition openai_transcription_only : Config :=
  with_models "openai" "local" "local" (load no_env).

Definition openai_response_only : Config :=
  with_models "local" "openai" "local" (load no_env).

(** Every credential set, to texts other than those of [all_keys_env]. *)
Definition other_keys_env : environ :=
  [ ("OPENAI_API_KEY", "x"); ("GROQ_API_KEY", " ");
    ("DEEPGRAM_API_KEY", "not a key"); ("ELEVENLABS_API_KEY", "0");
    ("CARTESIA_API_KEY", "None") ].

(** * Running the monad *)

Section Run.
Context {A B : Type}.

Lemma run_ret (a : A) (c : Config) : run (ret a) c = (inr a, c).
Proof. reflexivity. Qed.

Lemma run_raise (e : exn) (c : Config) : run (raise e : M A) c = (inl e, c).
Proof. reflexivity. Qed.

Lemma run_bind (m : M A) (k : A -> M B) (c : Config) :
  run (bind m k) c =
  match run m c with
  | (inl e, c') => (inl e, c')
  | (inr a, c') => run (k a) c'
  end.
Proof.
  unfold run; simpl.
  destruct (runState (unEitherT m) c) as [[e | a] c']; reflexivity.
Qed.

End Run.

Lemma run_getattr (name : string) (c : Config) :
  run (getattr name) c =
  (match assoc name (attributes c) with
   | Some v => inr v
   | None => inl (AttributeError name)
   end, c).
Proof.
  unfold getattr. rewrite run_bind.
  change (run get c) with (@inr exn Config c, c); cbv beta iota.
  destruct (assoc name (attributes c)); reflexivity.
Qed.

Lemma run_getattr_field (f : field) (c : Config) :
  run (getattr (field_name f)) c = (inr (VStr (selection c f)), c).
Proof. rewrite run_getattr. destruct f; reflexivity. Qed.

Lemma run_getattr_credential (k : credential) (c : Config) :
  run (getattr (credential_name k)) c = (inr (of_env (credential_value c k)), c).
Proof. rewrite run_getattr. destruct k; reflexivity. Qed.

(** * The methods only read the registry *)

Lemma read_only_ret {A : Type} (a : A) : read_only (ret a : M A).
Proof. intro c. reflexivity. Qed.

Lemma read_only_raise {A : Type} (e : exn) : read_only (raise e : M A).
Proof. intro c. reflexivity. Qed.

Lemma read_only_getattr (name : string) : read_only (getattr name).
Proof. intro c. rewrite run_getattr. reflexivity. Qed.

Lemma read_only_bind {A B : Type} (m : M A) (k : A -> M B) :
  read_only m -> (forall a, read_only (k a)) -> read_only (bind m k).
Proof.
  intros Hm Hk c. rewrite run_bind.
  specialize (Hm c). destruct (run m c) as [[e | a] c']; simpl in Hm; subst c'.
  - reflexivity.
  - apply Hk.
Qed.

Lemma read_only_if {A : Type} (b : bool) (m1 m2 : M A) :
  read_only m1 -> read_only m2 -> read_only (if b then m1 else m2).
Proof. destruct b; trivial. Qed.

Create HintDb read_only.
#[local] Hint Resolve read_only_ret read_only_raise read_only_getattr
  read_only_if : read_only.

Lemma read_only_validate_model (attribute : string) (valid_options : list string) :
  read_only (_validate_model attribute valid_options).
Proof.
  unfold _validate_model.
  apply read_only_bind; intros; auto with read_only.
Qed.

Lemma read_only_validate_api_key (model_attr model_value api_key_attr : string) :
  read_only (_validate_api_key model_attr model_value api_key_attr).
Proof.
  unfold _validate_api_key.
  apply read_only_bind; [auto with read_only | intro selected].
  apply read_only_bind; [| intro missing; auto with read_only].
  apply read_only_if; [| auto with read_only].
  apply read_only_bind; intros; auto with read_only.
Qed.

Lemma read_only_validate_config : read_only validate_config.
Proof.
  unfold validate_config.
  repeat (apply read_only_bind;
          [first [apply read_only_validate_model | apply read_only_validate_api_key]
          | intros _]).
  apply read_only_validate_api_key.
Qed.

(** * The routine performs the twelve checks in order *)

(** The body of [validate_config] is, call for call, the list [checks]. *)
Lemma validate_config_unfold : validate_config = perform_all checks.
Proof. reflexivity. Qed.

Lemma py_in_strings (s : string) (l : list string) :
  py_in (VStr s) (map VStr l) = existsb (String.eqb s) l.
Proof.
  unfold py_in. induction l as [| x l IH]; simpl; [reflexivity |].
  now rewrite IH.
Qed.

Lemma run_validate_model (f : field) (c : Config) :
  run (_validate_model (field_name f) (domain f)) c
  = (outcome (check_error c (DomainCheck f)), c).
Proof.
  unfold _validate_model.
  rewrite run_bind, run_getattr_field, py_in_strings.
  simpl check_error. unfold in_domainb.
  destruct (existsb (String.eqb (selection c f)) (domain f)); reflexivity.
Qed.

Lemma run_validate_api_key (r : rule) (c : Config) :
  run (_validate_api_key (field_name (rule_field r)) (rule_provider r)
         (credential_name (rule_credential r))) c
  = (outcome (check_error c (CredentialCheck r)), c).
Proof.
  unfold _validate_api_key.
  rewrite run_bind, run_getattr_field, run_bind.
  simpl check_error. unfold violatedb. simpl py_eq.
  destruct (String.eqb (selection c (rule_field r)) (rule_provider r)).
  - rewrite run_bind, run_getattr_credential, run_ret. unfold present.
    destruct (credential_value c (rule_credential r)) as [s |]; simpl;
      [destruct (String.eqb s EmptyString) |]; reflexivity.
  - rewrite run_ret. reflexivity.
Qed.

Lemma run_perform (ch : check) (c : Config) :
  run (perform ch) c = (outcome (check_error c ch), c).
Proof.
  destruct ch; [apply run_validate_model | apply run_validate_api_key].
Qed.

Lemma run_perform_all (l : list check) (c : Config) :
  run (perform_all l) c = (outcome (first_error c l), c).
Proof.
  induction l as [| ch rest IH]; [reflexivity |].
  destruct rest as [| ch' rest].
  - simpl. rewrite run_perform. destruct (check_error c ch); reflexivity.
  - change (perform_all (ch :: ch' :: rest))
      with (bind (perform ch) (fun _ => perform_all (ch' :: rest))).
    rewrite run_bind, run_perform.
    change (first_error c (ch :: ch' :: rest))
      with (match check_error c ch with
            | Some e => Some e
            | None => first_error c (ch' :: rest)
            end).
    destruct (check_error c ch); [reflexivity | apply IH].
Qed.

Lemma run_validate_config (c : Config) :
  run validate_config c = (outcome (first_error c checks), c).
Proof. rewrite validate_config_unfold. apply run_perform_all. Qed.

(** * Boolean tests and their meaning *)

Lemma present_true (c : Config) (k : credential) :
  present c k = true <->
  exists s, credential_value c k = Some s /\ s <> EmptyString.
Proof.
  unfold present. destruct (credential_value c k) as [s |].
  - rewrite negb_true_iff, String.eqb_neq. split.
    + intro H. exists s. now split.
    + intros (s' & Heq & Hne). inversion Heq. now subst s'.
  - split; [discriminate | intros (s & Heq & _); discriminate].
Qed.

Lemma present_false (c : Config) (k : credential) :
  present c k = false <->
  credential_value c k = None \/ credential_value c k = Some EmptyString.
Proof.
  unfold present. destruct (credential_value c k) as [s |].
  - rewrite negb_false_iff, String.eqb_eq. split.
    + intros ->. now right.
    + intros [H | H]; [discriminate | now inversion H].
  - split; [now left | reflexivity].
Qed.

Lemma in_domainb_true (c : Config) (f : field) :
  in_domainb c f = true <-> in_domain c f.
Proof.
  unfold in_domainb, in_domain. rewrite existsb_exists. split.
  - intros (x & Hin & Heq). apply String.eqb_eq in Heq. now subst x.
  - intro Hin. exists (selection c f). split; [assumption | apply String.eqb_refl].
Qed.

Lemma in_domainb_false (c : Config) (f : field) :
  in_domainb c f = false <-> ~ in_domain c f.
Proof.
  rewrite <- in_domainb_true. destruct (in_domainb c f); split; intro H;
    try reflexivity; try discriminate; try (intro; discriminate).
  exfalso. now apply H.
Qed.

Lemma violatedb_true (c : Config) (r : rule) :
  violatedb c r = true <-> violated c r.
Proof.
  unfold violatedb, violated, applies.
  rewrite andb_true_iff, String.eqb_eq, negb_true_iff. reflexivity.
Qed.

Lemma violatedb_false (c : Config) (r : rule) :
  violatedb c r = false <-> ~ violated c r.
Proof.
  rewrite <- violatedb_true. destruct (violatedb c r); split; intro H;
    try reflexivity; try discriminate; try (intro; discriminate).
  exfalso. now apply H.
Qed.

(** A rule that applies with its credential present is not violated. *)
Lemma not_violated_present (c : Config) (r : rule) :
  (applies c r -> present c (rule_credential r) = true) -> ~ violated c r.
Proof.
  intros H [Ha Hp]. rewrite (H Ha) in Hp. discriminate.
Qed.

(** * Searching a list for the first hit *)

Section Find.
Context {X : Type} (p : X -> bool).

Lemma find_all_false (l : list X) :
  (forall x, In x l -> p x = false) -> find p l = None.
Proof.
  induction l as [| x l IH]; intro H; [reflexivity |].
  simpl. rewrite (H x (or_introl eq_refl)).
  apply IH. intros y Hy. apply H. now right.
Qed.

Lemma find_first (l1 l2 : list X) (x : X) :
  (forall y, In y l1 -> p y = false) -> p x = true ->
  find p (l1 ++ x :: l2) = Some x.
Proof.
  induction l1 as [| y l1 IH]; intros H Hx; simpl.
  - now rewrite Hx.
  - rewrite (H y (or_introl eq_refl)).
    apply IH; [| assumption]. intros z Hz. apply H. now right.
Qed.

Lemma find_hit (l : list X) :
  (exists x, In x l /\ p x = true) -> exists x, find p l = Some x.
Proof.
  intros (x & Hin & Hx).
  destruct (find p l) as [y |] eqn:E; [now exists y |].
  rewrite (find_none p l E x Hin) in Hx. discriminate.
Qed.

End Find.

(** * The first error, in closed form *)

Lemma first_error_app (c : Config) (l1 l2 : list check) :
  first_error c (l1 ++ l2) =
  match first_error c l1 with
  | Some e => Some e
  | None => first_error c l2
  end.
Proof.
  induction l1 as [| ch l1 IH]; [reflexivity |].
  simpl. destruct (check_error c ch); [reflexivity | apply IH].
Qed.

Lemma first_error_domain (c : Config) (fs : list field) :
  first_error c (map DomainCheck fs)
  = option_map InvalidProviderSelection (find (fun f => negb (in_domainb c f)) fs).
Proof.
  induction fs as [| f fs IH]; [reflexivity |].
  simpl. destruct (in_domainb c f); simpl; [apply IH | reflexivity].
Qed.

Lemma first_error_rules (c : Config) (rs : list rule) :
  first_error c (map CredentialCheck rs)
  = option_map rule_error (find (violatedb c) rs).
Proof.
  induction rs as [| r rs IH]; [reflexivity |].
  simpl. destruct (violatedb c r); simpl; [reflexivity | apply IH].
Qed.

Lemma first_error_checks (c : Config) :
  first_error c checks =
  match first_invalid c with
  | Some f => Some (InvalidProviderSelection f)
  | None => option_map rule_error (first_violated c)
  end.
Proof.
  unfold checks. rewrite first_error_app, first_error_domain, first_error_rules.
  unfold first_invalid, first_violated.
  destruct (find (fun f => negb (in_domainb c f)) fields); reflexivity.
Qed.

Lemma first_error_split (c : Config) (l1 l2 : list check) (ch : check) :
  (forall ch', In ch' l1 -> check_error c ch' = None) ->
  first_error c (l1 ++ ch :: l2) =
  match check_error c ch with
  | Some e => Some e
  | None => first_error c l2
  end.
Proof.
  induction l1 as [| x l1 IH]; intro H; [reflexivity |].
  simpl. rewrite (H x (or_introl eq_refl)).
  apply IH. intros y Hy. apply H. now right.
Qed.

Lemma first_invalid_none (c : Config) :
  (forall f, in_domain c f) -> first_invalid c = None.
Proof.
  intro H. apply find_all_false. intros f _.
  apply negb_false_iff, in_domainb_true, H.
Qed.

Lemma first_invalid_some (c : Config) (f : field) :
  first_invalid c = Some f <->
  ~ in_domain c f /\ forall g, field_index g < field_index f -> in_domain c g.
Proof.
  unfold first_invalid, fields; simpl.
  destruct (in_domainb c Transcription) eqn:ET;
    destruct (in_domainb c Response) eqn:ER;
    destruct (in_domainb c Tts) eqn:ES; simpl;
    repeat match goal with
           | H : in_domainb _ _ = true |- _ => apply in_domainb_true in H
           | H : in_domainb _ _ = false |- _ => apply in_domainb_false in H
           end;
    (split;
     [ intro H; inversion H; subst; clear H;
       (split; [assumption | intros [] Hlt; simpl in Hlt; (assumption || lia)])
     | intros [Hn Hb]; destruct f; simpl in Hb;
       try reflexivity; try contradiction;
       try (exfalso; match goal with
                     | H : ~ in_domain c ?g |- _ => apply H; apply Hb; simpl; lia
                     end) ]).
Qed.

Lemma first_invalid_exists (c : Config) :
  (exists f, ~ in_domain c f) -> exists f, first_invalid c = Some f.
Proof.
  intros [f Hf]. apply find_hit. exists f. split.
  - destruct f; simpl; auto.
  - apply negb_true_iff, in_domainb_false, Hf.
Qed.

Lemma first_violated_none (c : Config) :
  (forall r, In r rules -> ~ violated c r) -> first_violated c = None.
Proof.
  intro H. apply find_all_false. intros r Hr. apply violatedb_false, H, Hr.
Qed.

(** The three outcomes of the routine. *)

Lemma run_validate_config_pass (c : Config) :
  (forall f, in_domain c f) ->
  (forall r, In r rules -> applies c r -> present c (rule_credential r) = true) ->
  run validate_config c = (inr tt, c).
Proof.
  intros Hdom Hcred.
  rewrite run_validate_config, first_error_checks.
  rewrite (first_invalid_none c Hdom).
  rewrite first_violated_none; [reflexivity |].
  intros r Hr. apply not_violated_present. auto.
Qed.

Lemma run_validate_config_invalid (c : Config) (f : field) :
  first_invalid c = Some f ->
  run validate_config c = (inl (InvalidProviderSelection f), c).
Proof.
  intro Hf. rewrite run_validate_config, first_error_checks, Hf. reflexivity.
Qed.

Lemma run_validate_config_missing (c : Config) (l1 l2 : list rule) (r : rule) :
  rules = (l1 ++ r :: l2)%list ->
  (forall f, in_domain c f) ->
  (forall r', In r' l1 -> ~ violated c r') ->
  violated c r ->
  run validate_config c = (inl (rule_error r), c).
Proof.
  intros Hsplit Hdom Hearlier Hv.
  rewrite run_validate_config, first_error_checks.
  rewrite (first_invalid_none c Hdom).
  unfold first_violated. rewrite Hsplit.
  rewrite find_first; [reflexivity | |].
  - intros r' Hr'. apply violatedb_false. auto.
  - apply violatedb_true. exact Hv.
Qed.

(** * The outcome depends on eight attributes *)

Lemma same_inputs_selection (c c' : Config) (f : field) :
  same_inputs c c' -> selection c f = selection c' f.
Proof. unfold same_inputs. intro H. destruct f; simpl; tauto. Qed.

Lemma same_inputs_credential (c c' : Config) (k : credential) :
  same_inputs c c' -> credential_value c k = credential_value c' k.
Proof. unfold same_inputs. intro H. destruct k; simpl; tauto. Qed.

Lemma check_error_same_inputs (c c' : Config) (ch : check) :
  same_inputs c c' -> check_error c ch = check_error c' ch.
Proof.
  intro H. destruct ch as [f | r]; simpl.
  - unfold in_domainb. now rewrite (same_inputs_selection c c' f H).
  - unfold violatedb, present.
    now rewrite (same_inputs_selection c c' _ H), (same_inputs_credential c c' _ H).
Qed.

Lemma first_error_same_inputs (c c' : Config) (l : list check) :
  same_inputs c c' -> first_error c l = first_error c' l.
Proof.
  intro H. induction l as [| ch l IH]; [reflexivity |].
  simpl. now rewrite (check_error_same_inputs c c' ch H), IH.
Qed.

(** * What an error message mentions *)

Lemma starts_with_app (s t : string) : starts_with s (s ++ t) = true.
Proof.
  induction s as [| a s IH]; [reflexivity |].
  simpl. now rewrite Ascii.eqb_refl, IH.
Qed.

Lemma occurs_here (s t : string) : occurs s (s ++ t) = true.
Proof.
  destruct (s ++ t) eqn:E; simpl; rewrite <- E, starts_with_app; reflexivity.
Qed.

Lemma occurs_app_r (s a t : string) :
  occurs s t = true -> occurs s (a ++ t) = true.
Proof.
  intro H. induction a as [| x a IH]; [exact H |].
  simpl. rewrite IH. apply orb_true_r.
Qed.

Lemma MissingCredential_mentions (k p : string) :
  mentions (MissingCredential k p) k = true /\
  mentions (MissingCredential k p) p = true.
Proof.
  unfold MissingCredential, mentions. split.
  - apply occurs_here.
  - do 2 apply occurs_app_r. apply occurs_here.
Qed.

Lemma InvalidProviderSelection_mentions (f : field) :
  mentions (InvalidProviderSelection f) (field_name f) = true /\
  mentions (InvalidProviderSelection f) (str_list (domain f)) = true.
Proof. destruct f; split; vm_compute; reflexivity. Qed.

Lemma load_selections (env : environ) :
  TRANSCRIPTION_MODEL (load env) = "deepgram"
  /\ RESPONSE_MODEL (load env) = "openai"
  /\ TTS_MODEL (load env) = "openai".
Proof. repeat split. Qed.

(** * Properties of [validate_config] *)

Ltac split_in H :=
  simpl in H;
  repeat (destruct H as [<- | H]);
  try contradiction.

Ltac in_domain_now := unfold in_domain; simpl; tauto.

(** C1. Whenever the three provider selections lie in their domains and
    every rule of the table that applies to the selection has its
    credential present and non-empty, [validate_config] returns normally. *)
Theorem validate_config_accepts (c : Config) :
  (forall f, in_domain c f) ->
  (forall r, In r rules -> applies c r ->
             exists s, credential_value c (rule_credential r) = Some s
                       /\ s <> EmptyString) ->
  run validate_config c = (inr tt, c).
Proof.
  intros Hdom Hcred. apply run_validate_config_pass; [exact Hdom |].
  intros r Hr Ha. apply present_true. auto.
Qed.

Lemma validate_config_accepts_witness :
  run validate_config (load two_keys_env) = (inr tt, load two_keys_env).
Proof.
  apply validate_config_accepts.
  - intros []; in_domain_now.
  - intros r Hr. split_in Hr; intro Ha; try discriminate Ha.
    + exists "dg-test". split; [reflexivity | discriminate].
    + exists "sk-test". split; [reflexivity | discriminate].
    + exists "sk-test". split; [reflexivity | discriminate].
Defined.

(** C2. The table has nine rules, three for transcription, two for the
    response and four for speech.  When the selections are in their
    domains and a rule is the first violated one (its field selects its
    provider value, its credential is absent or empty, and no rule
    before it in the table is violated), [validate_config] raises the
    error that names that credential and that provider value.  In
    particular, transcription by 'openai' without OPENAI_API_KEY raises
    "OPENAI_API_KEY is required for openai models". *)
Theorem validate_config_missing_credential :
  (length rules = 9
   /\ length (filter (fun r => Nat.eqb (field_index (rule_field r)) 0) rules) = 3
   /\ length (filter (fun r => Nat.eqb (field_index (rule_field r)) 1) rules) = 2
   /\ length (filter (fun r => Nat.eqb (field_index (rule_field r)) 2) rules) = 4)
  /\ (forall (c : Config) (l1 l2 : list rule) (r : rule),
        rules = (l1 ++ r :: l2)%list ->
        (forall f, in_domain c f) ->
        (forall r', In r' l1 -> ~ violated c r') ->
        selection c (rule_field r) = rule_provider r ->
        credential_value c (rule_credential r) = None
        \/ credential_value c (rule_credential r) = Some EmptyString ->
        let e := ValueError (credential_name (rule_credential r) ++ " is required for "
                               ++ rule_provider r ++ " models") in
        run validate_config c = (inl e, c)
        /\ e = MissingCredential (credential_name (rule_credential r)) (rule_provider r)
        /\ mentions e (credential_name (rule_credential r)) = true
        /\ mentions e (rule_provider r) = true)
  /\ (forall c : Config,
        TRANSCRIPTION_MODEL c = "openai" ->
        OPENAI_API_KEY c = None ->
        in_domain c Response ->
        in_domain c Tts ->
        run validate_config c
        = (inl (ValueError "OPENAI_API_KEY is required for openai models"), c)).
Proof.
  split; [repeat split |]. split.
  - intros c l1 l2 r Hsplit Hdom Hearlier Ha Hp e. split; [| split].
    + apply (run_validate_config_missing c l1 l2 r); try assumption.
      split; [exact Ha | apply present_false, Hp].
    + reflexivity.
    + apply MissingCredential_mentions.
  - intros c HT HK HR HS.
    apply (run_validate_config_missing c [] (tl rules) (Transcription, "openai", OpenAI)).
    + reflexivity.
    + intros []; [unfold in_domain; simpl; rewrite HT; simpl; tauto | assumption ..].
    + intros r' [].
    + split; [exact HT |]. apply present_false. left. exact HK.
Qed.

Lemma validate_config_missing_credential_witness :
  run validate_config groq_response_no_key
  = (inl (ValueError "GROQ_API_KEY is required for groq models"), groq_response_no_key)
  /\ run validate_config openai_transcription_no_key
     = (inl (ValueError "OPENAI_API_KEY is required for openai models"),
        openai_transcription_no_key).
Proof.
  split.
  - apply (proj1 (proj2 validate_config_missing_credential)
             groq_response_no_key
             (firstn 4 rules) (skipn 5 rules) (Response, "groq", Groq)).
    + reflexivity.
    + intros []; in_domain_now.
    + intros r' Hr' [Ha Hp]. split_in Hr'; discriminate.
    + reflexivity.
    + left. reflexivity.
  - apply (proj2 (proj2 validate_config_missing_credential)
             openai_transcription_no_key).
    + reflexivity.
    + reflexivity.
    + in_domain_now.
    + in_domain_now.
Defined.

(** C3, as stated, fails.  With TRANSCRIPTION_MODEL = 'azure' the routine
    raises a [ValueError] whose message gives the field name and the list
    of allowed values; the offending value 'azure' occurs nowhere in it,
    and another out-of-domain value yields the very same exception. *)
Lemma invalid_selection_hides_value :
  ~ in_domain azure_transcription Transcription
  /\ run validate_config azure_transcription
     = (inl (ValueError
          "Invalid TRANSCRIPTION_MODEL. Must be one of ['openai', 'groq', 'deepgram', 'fastwhisperapi', 'local']"),
        azure_transcription)
  /\ (forall e, fst (run validate_config azure_transcription) = inl e ->
                mentions e (selection azure_transcription Transcription) = false)
  /\ selection bedrock_transcription Transcription
     <> selection azure_transcription Transcription
  /\ fst (run validate_config bedrock_transcription)
     = fst (run validate_config azure_transcription).
Proof.
  split; [| split; [| split; [| split]]].
  - apply in_domainb_false. reflexivity.
  - reflexivity.
  - intros e He. vm_compute in He. inversion He; subst e. reflexivity.
  - discriminate.
  - reflexivity.
Qed.

(** C3, amended.  Whenever some provider selection is out of its domain,
    [validate_config] raises, for the first such field in the order
    transcription, response, speech, the [ValueError] whose message gives
    the name of that field and its list of allowed values.  The message
    is a function of the field alone. *)
Theorem validate_config_invalid_selection (c : Config) :
  (exists f, ~ in_domain c f) ->
  exists f,
    ~ in_domain c f
    /\ (forall g, field_index g < field_index f -> in_domain c g)
    /\ run validate_config c
       = (inl (ValueError ("Invalid " ++ field_name f ++ ". Must be one of "
                             ++ str_list (domain f))), c)
    /\ mentions (InvalidProviderSelection f) (field_name f) = true
    /\ mentions (InvalidProviderSelection f) (str_list (domain f)) = true.
Proof.
  intro H. destruct (first_invalid_exists c H) as [f Hf].
  exists f. destruct (proj1 (first_invalid_some c f) Hf) as [Hout Hbefore].
  repeat split; try assumption.
  - apply (run_validate_config_invalid c f Hf).
  - apply InvalidProviderSelection_mentions.
  - apply InvalidProviderSelection_mentions.
Qed.

Lemma validate_config_invalid_selection_witness :
  exists f,
    ~ in_domain azure_transcription f
    /\ (forall g, field_index g < field_index f -> in_domain azure_transcription g)
    /\ run validate_config azure_transcription
       = (inl (ValueError ("Invalid " ++ field_name f ++ ". Must be one of "
                             ++ str_list (domain f))), azure_transcription)
    /\ mentions (InvalidProviderSelection f) (field_name f) = true
    /\ mentions (InvalidProviderSelection f) (str_list (domain f)) = true.
Proof.
  apply validate_config_invalid_selection.
  exists Transcription. apply in_domainb_false. reflexivity.
Defined.

(** C4. The body of [validate_config] is the list of twelve checks in
    order: the three domain checks (transcription, response, speech), then
    the nine rules of the table.  It stops at the first check that fails
    and raises that check's error, whatever the later checks would say.
    Hence a state with both an out-of-domain selection and a violated rule
    gets the error of its first out-of-domain field. *)
Theorem validate_config_order :
  validate_config = perform_all checks
  /\ checks
     = ([DomainCheck Transcription; DomainCheck Response; DomainCheck Tts]
        ++ map CredentialCheck rules)%list
  /\ (forall (c : Config) (l1 l2 : list check) (ch : check) (e : exn),
        checks = (l1 ++ ch :: l2)%list ->
        (forall ch', In ch' l1 -> check_error c ch' = None) ->
        check_error c ch = Some e ->
        run validate_config c = (inl e, c))
  /\ (forall (c : Config),
        (exists f, ~ in_domain c f) ->
        (exists r, In r rules /\ violated c r) ->
        exists f,
          ~ in_domain c f
          /\ (forall g, field_index g < field_index f -> in_domain c g)
          /\ run validate_config c = (inl (InvalidProviderSelection f), c)).
Proof.
  split; [reflexivity |]. split; [reflexivity |]. split.
  - intros c l1 l2 ch e Hsplit Hpass Hfail.
    rewrite run_validate_config, Hsplit, (first_error_split c l1 l2 ch Hpass), Hfail.
    reflexivity.
  - intros c Hdom _.
    destruct (first_invalid_exists c Hdom) as [f Hf].
    exists f. destruct (proj1 (first_invalid_some c f) Hf) as [Hout Hbefore].
    repeat split; try assumption.
    apply (run_validate_config_invalid c f Hf).
Qed.

Lemma validate_config_order_witness :
  run validate_config bad_tts_no_keys
  = (inl (ValueError
       "Invalid TTS_MODEL. Must be one of ['openai', 'deepgram', 'elevenlabs', 'melotts', 'cartesia', 'local', 'piper']"),
     bad_tts_no_keys)
  /\ exists f,
       ~ in_domain bad_tts_no_keys f
       /\ (forall g, field_index g < field_index f -> in_domain bad_tts_no_keys g)
       /\ run validate_config bad_tts_no_keys
          = (inl (InvalidProviderSelection f), bad_tts_no_keys).
Proof.
  split.
  - apply (proj1 (proj2 (proj2 validate_config_order))
             bad_tts_no_keys
             [DomainCheck Transcription; DomainCheck Response]
             (map CredentialCheck rules)
             (DomainCheck Tts)).
    + reflexivity.
    + intros ch' Hch'. split_in Hch'; reflexivity.
    + reflexivity.
  - apply (proj2 (proj2 (proj2 validate_config_order)) bad_tts_no_keys).
    + exists Tts. apply in_domainb_false. reflexivity.
    + exists (Transcription, "deepgram", Deepgram). split.
      * simpl. tauto.
      * apply violatedb_true. reflexivity.
Defined.

(** C5. Transcription by 'deepgram', response by 'openai', speech by
    'elevenlabs', with DEEPGRAM_API_KEY and OPENAI_API_KEY present and
    non-empty and ELEVENLABS_API_KEY unset: the routine raises
    "ELEVENLABS_API_KEY is required for elevenlabs models". *)
Theorem validate_config_elevenlabs_scenario (c : Config) (dg sk : string) :
  TRANSCRIPTION_MODEL c = "deepgram" ->
  RESPONSE_MODEL c = "openai" ->
  TTS_MODEL c = "elevenlabs" ->
  DEEPGRAM_API_KEY c = Some dg -> dg <> EmptyString ->
  OPENAI_API_KEY c = Some sk -> sk <> EmptyString ->
  ELEVENLABS_API_KEY c = None ->
  run validate_config c
  = (inl (ValueError "ELEVENLABS_API_KEY is required for elevenlabs models"), c)
  /\ ValueError "ELEVENLABS_API_KEY is required for elevenlabs models"
     = MissingCredential "ELEVENLABS_API_KEY" "elevenlabs".
Proof.
  intros HT HR HS HD Hdg HO Hsk HE. split; [| reflexivity].
  assert (PD : present c Deepgram = true)
    by (apply present_true; exists dg; split; assumption).
  assert (PO : present c OpenAI = true)
    by (apply present_true; exists sk; split; assumption).
  assert (PE : present c ElevenLabs = false)
    by (apply present_false; left; exact HE).
  rewrite run_validate_config.
  unfold checks, fields, rules, first_error, check_error, in_domainb, violatedb,
    rule_field, rule_provider, rule_credential, selection, domain; simpl.
  rewrite HT, HR, HS; simpl. rewrite PD, PO, PE. reflexivity.
Qed.

Lemma validate_config_elevenlabs_scenario_witness :
  run validate_config elevenlabs_no_key
  = (inl (ValueError "ELEVENLABS_API_KEY is required for elevenlabs models"),
     elevenlabs_no_key).
Proof.
  apply (proj1 (validate_config_elevenlabs_scenario elevenlabs_no_key
                  "dg-test" "sk-test" eq_refl eq_refl eq_refl
                  eq_refl ltac:(discriminate) eq_refl ltac:(discriminate) eq_refl)).
Defined.

(** C6. When every selection is in its domain and no rule of the table
    names it (speech by 'local', 'melotts' or 'piper', transcription by
    'fastwhisperapi' or 'local', response by 'ollama' or 'local'),
    [validate_config] returns normally whatever the credentials are, also
    when none is set. *)
Theorem validate_config_no_rule_no_credential :
  (forall c : Config,
     (forall f, in_domain c f /\ forall k, ~ In (f, selection c f, k) rules) ->
     run validate_config c = (inr tt, c))
  /\ (forall c : Config,
        In (TRANSCRIPTION_MODEL c) ["fastwhisperapi"; "local"] ->
        In (RESPONSE_MODEL c) ["ollama"; "local"] ->
        In (TTS_MODEL c) ["local"; "melotts"; "piper"] ->
        run validate_config c = (inr tt, c)).
Proof.
  assert (G : forall c : Config,
             (forall f, in_domain c f /\ forall k, ~ In (f, selection c f, k) rules) ->
             run validate_config c = (inr tt, c)).
  { intros c H. apply run_validate_config_pass.
    - intro f. apply H.
    - intros [[f p] k] Hr Ha.
      unfold applies, rule_field, rule_provider in Ha; simpl in Ha. subst p.
      exfalso. exact (proj2 (H f) k Hr). }
  split; [exact G |].
  intros c HT HR HS. apply G.
  assert (Hfree : forall f p k, In (f, p, k) rules ->
                   In p ["openai"; "groq"; "deepgram"; "elevenlabs"; "cartesia"]).
  { intros f p k Hr. simpl in Hr.
    repeat (destruct Hr as [Hr | Hr]; [inversion Hr; simpl; tauto |]).
    contradiction. }
  intros f; split.
  - unfold in_domain. destruct f; simpl selection.
    + simpl in HT. simpl. tauto.
    + simpl in HR. simpl. tauto.
    + simpl in HS. simpl. tauto.
  - intros k Hk. apply Hfree in Hk.
    destruct f; simpl selection in Hk.
    + simpl in HT, Hk. intuition congruence.
    + simpl in HR, Hk. intuition congruence.
    + simpl in HS, Hk. intuition congruence.
Qed.

Lemma validate_config_no_rule_no_credential_witness :
  (forall k, credential_value all_local_no_keys k = None)
  /\ run validate_config all_local_no_keys = (inr tt, all_local_no_keys)
  /\ run validate_config (with_models "fastwhisperapi" "ollama" "piper" (load no_env))
     = (inr tt, with_models "fastwhisperapi" "ollama" "piper" (load no_env)).
Proof.
  split; [intros []; reflexivity |]. split.
  - apply (proj1 validate_config_no_rule_no_credential).
    intros f; split.
    + destruct f; in_domain_now.
    + intros k Hk. destruct f; simpl in Hk;
        repeat (destruct Hk as [Hk | Hk]; [discriminate Hk |]); contradiction.
  - apply (proj2 validate_config_no_rule_no_credential); simpl; tauto.
Defined.

(** C7. Calling [validate_config] a second time, on the registry as the
    first call left it, gives the outcome of the first call; and two calls
    in a row end as one call does. *)
Theorem validate_config_idempotent (c : Config) :
  fst (run validate_config (snd (run validate_config c)))
  = fst (run validate_config c)
  /\ run (validate_config ;; validate_config) c = run validate_config c.
Proof.
  pose proof (read_only_validate_config c) as H. split.
  - rewrite H. reflexivity.
  - rewrite run_bind.
    destruct (run validate_config c) as [[e | []] c'] eqn:E; simpl in H; subst c'.
    + reflexivity.
    + exact E.
Qed.

(** C8. [validate_config] leaves the registry as it found it, whether it
    returns or raises: the final state is the initial one, and so is the
    value of every attribute. *)
Theorem validate_config_frame (c : Config) :
  snd (run validate_config c) = c
  /\ (forall name, assoc name (attributes (snd (run validate_config c)))
                   = assoc name (attributes c))
  /\ (run validate_config c = (inr tt, c)
      \/ exists e, run validate_config c = (inl e, c)).
Proof.
  pose proof (read_only_validate_config c) as H.
  split; [exact H |]. split.
  - intro name. now rewrite H.
  - destruct (run validate_config c) as [[e | []] c']; simpl in H; subst c'.
    + right. now exists e.
    + now left.
Qed.

(** C9. With the selections the class body sets ('deepgram', 'openai',
    'openai'), [validate_config] returns normally exactly when
    DEEPGRAM_API_KEY and OPENAI_API_KEY are both present and non-empty;
    its outcome is a function of these two facts alone. *)
Theorem validate_config_defaults (c : Config) :
  TRANSCRIPTION_MODEL c = "deepgram" ->
  RESPONSE_MODEL c = "openai" ->
  TTS_MODEL c = "openai" ->
  (run validate_config c = (inr tt, c)
   <-> (exists dg, DEEPGRAM_API_KEY c = Some dg /\ dg <> EmptyString)
       /\ (exists sk, OPENAI_API_KEY c = Some sk /\ sk <> EmptyString))
  /\ run validate_config c
     = (if present c Deepgram
        then if present c OpenAI
             then inr tt
             else inl (ValueError "OPENAI_API_KEY is required for openai models")
        else inl (ValueError "DEEPGRAM_API_KEY is required for deepgram models"),
        c).
Proof.
  intros HT HR HS.
  assert (E : run validate_config c
              = (if present c Deepgram
                 then if present c OpenAI
                      then inr tt
                      else inl (ValueError "OPENAI_API_KEY is required for openai models")
                 else inl (ValueError "DEEPGRAM_API_KEY is required for deepgram models"),
                 c)).
  { rewrite run_validate_config.
    unfold checks, fields, rules, first_error, check_error, in_domainb, violatedb,
      rule_field, rule_provider, rule_credential, selection, domain; simpl.
    rewrite HT, HR, HS; simpl.
    destruct (present c Deepgram); simpl; [| reflexivity].
    destruct (present c OpenAI); reflexivity. }
  split; [| exact E].
  rewrite E.
  change (DEEPGRAM_API_KEY c) with (credential_value c Deepgram).
  change (OPENAI_API_KEY c) with (credential_value c OpenAI).
  rewrite <- !present_true.
  destruct (present c Deepgram); destruct (present c OpenAI); split;
    try (intros [? ?]); try intro; try discriminate; auto.
Qed.

Lemma validate_config_defaults_witness :
  run validate_config (load two_keys_env) = (inr tt, load two_keys_env)
  /\ run validate_config (load no_env)
     = (inl (ValueError "DEEPGRAM_API_KEY is required for deepgram models"),
        load no_env).
Proof.
  split.
  - apply (proj1 (validate_config_defaults (load two_keys_env)
                    (proj1 (load_selections two_keys_env))
                    (proj1 (proj2 (load_selections two_keys_env)))
                    (proj2 (proj2 (load_selections two_keys_env))))).
    split.
    + exists "dg-test". split; [reflexivity | discriminate].
    + exists "sk-test". split; [reflexivity | discriminate].
  - apply (proj2 (validate_config_defaults (load no_env) eq_refl eq_refl eq_refl)).
Defined.

(** C10. The outcome of [validate_config] depends on the three selections
    and the five credentials of the table and on nothing else: two
    registries that agree on these eight attributes get the same outcome,
    whatever PIPER_SERVER_URL, LOCAL_MODEL_PATH and the other attributes
    hold.  So with speech by 'piper', the other two selections in domain
    and their credentials present, the routine returns normally for every
    value of PIPER_SERVER_URL, unset and empty included. *)
Theorem validate_config_ignores_auxiliary :
  (forall c c' : Config,
     same_inputs c c' ->
     fst (run validate_config c) = fst (run validate_config c'))
  /\ (forall (c : Config) (url : option string),
        TTS_MODEL c = "piper" ->
        in_domain c Transcription ->
        in_domain c Response ->
        (forall r, In r rules -> applies c r -> present c (rule_credential r) = true) ->
        run validate_config (with_piper_server_url url c)
        = (inr tt, with_piper_server_url url c)).
Proof.
  split.
  - intros c c' H. rewrite !run_validate_config. cbn [fst].
    now rewrite (first_error_same_inputs c c' checks H).
  - intros c url HS HT HR Hcred.
    apply run_validate_config_pass.
    + intros []; unfold in_domain; simpl; [exact HT | exact HR |].
      rewrite HS. simpl. tauto.
    + intros r Hr Ha. exact (Hcred r Hr Ha).
Qed.

Lemma validate_config_ignores_auxiliary_witness :
  fst (run validate_config piper_setup)
  = fst (run validate_config
           (with_auxiliary (Some "http://localhost:5000") (Some "/models") "o.wav"
              "a" "b" "c" 1 "in.mp3" piper_setup))
  /\ run validate_config (with_piper_server_url None piper_setup)
     = (inr tt, with_piper_server_url None piper_setup)
  /\ run validate_config (with_piper_server_url (Some EmptyString) piper_setup)
     = (inr tt, with_piper_server_url (Some EmptyString) piper_setup).
Proof.
  assert (Hcred : forall r, In r rules -> applies piper_setup r ->
                            present piper_setup (rule_credential r) = true).
  { intros r Hr. split_in Hr; intro Ha; try reflexivity; discriminate Ha. }
  split; [| split].
  - apply (proj1 validate_config_ignores_auxiliary).
    repeat split.
  - apply (proj2 validate_config_ignores_auxiliary piper_setup None);
      [reflexivity | in_domain_now .. | exact Hcred].
  - apply (proj2 validate_config_ignores_auxiliary piper_setup (Some EmptyString));
      [reflexivity | in_domain_now .. | exact Hcred].
Defined.

(** * The helpers at arbitrary arguments *)



Lemma run_validate_model_any (attribute : string) (valid_options : list string)
    (c : Config) :
  run (_validate_model attribute valid_options) c =
  (match assoc attribute (attributes c) with
   | None => inl (AttributeError attribute)
   | Some v =>
       if py_in v (map VStr valid_options) then inr tt
       else inl (ValueError ("Invalid " ++ attribute ++ ". Must be one of "
                               ++ str_list valid_options))
   end, c).
Proof.
  unfold _validate_model. rewrite run_bind, run_getattr.
  destruct (assoc attribute (attributes c)) as [v |]; [| reflexivity].
  destruct (py_in v (map VStr valid_options)); reflexivity.
Qed.

Lemma run_validate_api_key_any (model_attr model_value api_key_attr : string)
    (c : Config) :
  run (_validate_api_key model_attr model_value api_key_attr) c =
  (match assoc model_attr (attributes c) with
   | None => inl (AttributeError model_attr)
   | Some x =>
       if py_eq x (VStr model_value) then
         match assoc api_key_attr (attributes c) with
         | None => inl (AttributeError api_key_attr)
         | Some y =>
             if truthy y then inr tt
             else inl (ValueError (api_key_attr ++ " is required for "
                                     ++ model_value ++ " models"))
         end
       else inr tt
   end, c).
Proof.
  unfold _validate_api_key. rewrite run_bind, run_getattr.
  destruct (assoc model_attr (attributes c)) as [x |]; [| reflexivity].
  rewrite run_bind.
  destruct (py_eq x (VStr model_value)).
  - rewrite run_bind, run_getattr.
    destruct (assoc api_key_attr (attributes c)) as [y |]; [| reflexivity].
    rewrite run_ret. destruct (truthy y); reflexivity.
  - rewrite run_ret. reflexivity.
Qed.

Lemma last_char_app (s t : string) :
  last_char (s ++ t) =
  match last_char t with
  | Some b => Some b
  | None => last_char s
  end.
Proof.
  induction s as [| a s IH]; simpl.
  - destruct (last_char t); reflexivity.
  - rewrite IH. destruct (last_char t); reflexivity.
Qed.

Lemma last_char_invalid (attribute : string) (valid_options : list string) :
  last_char ("Invalid " ++ attribute ++ ". Must be one of " ++ str_list valid_options)
  = Some "]"%char.
Proof.
  unfold str_list. now rewrite !last_char_app.
Qed.

Lemma last_char_required (k p : string) :
  last_char (k ++ " is required for " ++ p ++ " models") = Some "s"%char.
Proof. now rewrite !last_char_app. Qed.

(** * The routine as a decision *)

Lemma all_fields (f : field) : In f fields.
Proof. destruct f; simpl; auto. Qed.

Lemma first_invalid_none_inv (c : Config) :
  first_invalid c = None -> forall f, in_domain c f.
Proof.
  intros H f. apply in_domainb_true, negb_false_iff.
  exact (find_none _ _ H f (all_fields f)).
Qed.

Lemma first_violated_none_inv (c : Config) :
  first_violated c = None -> forall r, In r rules -> ~ violated c r.
Proof.
  intros H r Hr. apply violatedb_false. exact (find_none _ _ H r Hr).
Qed.

Lemma run_validate_config_pass_iff (c : Config) :
  run validate_config c = (inr tt, c) <->
  (forall f, in_domain c f)
  /\ (forall r, In r rules -> applies c r -> present c (rule_credential r) = true).
Proof.
  split.
  - rewrite run_validate_config, first_error_checks.
    destruct (first_invalid c) as [f |] eqn:Ef; [discriminate |].
    destruct (first_violated c) as [r |] eqn:Er; [discriminate |].
    intros _. split; [exact (first_invalid_none_inv c Ef) |].
    intros r Hr Ha.
    destruct (present c (rule_credential r)) eqn:Ep; [reflexivity |].
    exfalso. apply (first_violated_none_inv c Er r Hr). split; assumption.
  - intros [Hdom Hcred]. apply run_validate_config_pass; assumption.
Qed.

Lemma check_error_presence (c c' : Config) (ch : check) :
  (forall f, selection c f = selection c' f) ->
  (forall k, present c k = present c' k) ->
  check_error c ch = check_error c' ch.
Proof.
  intros Hs Hp. destruct ch as [f | r]; simpl.
  - unfold in_domainb. now rewrite (Hs f).
  - unfold violatedb. now rewrite (Hs (rule_field r)), (Hp (rule_credential r)).
Qed.

Lemma first_error_presence (c c' : Config) (l : list check) :
  (forall f, selection c f = selection c' f) ->
  (forall k, present c k = present c' k) ->
  first_error c l = first_error c' l.
Proof.
  intros Hs Hp. induction l as [| ch l IH]; [reflexivity |].
  simpl. now rewrite (check_error_presence c c' ch Hs Hp), IH.
Qed.

Lemma provider_fixes_credential (r r' : rule) :
  In r rules -> In r' rules ->
  rule_provider r = rule_provider r' -> rule_credential r = rule_credential r'.
Proof.
  intros Hr Hr' Hp. split_in Hr; split_in Hr'; (reflexivity || discriminate Hp).
Qed.

Lemma getenv_other (env : environ) (name value k : string) :
  k <> name -> getenv ((name, value) :: env) k = getenv env k.
Proof.
  intro H. simpl. apply String.eqb_neq in H. now rewrite H.
Qed.

Lemma run_validate_config_load (env : environ) :
  run validate_config (load env) =
  (if env_has env "DEEPGRAM_API_KEY"
   then if env_has env "OPENAI_API_KEY"
        then inr tt
        else inl (ValueError "OPENAI_API_KEY is required for openai models")
   else inl (ValueError "DEEPGRAM_API_KEY is required for deepgram models"),
   load env).
Proof.
  rewrite run_validate_config.
  unfold checks, fields, rules, first_error, check_error, in_domainb, violatedb,
    rule_field, rule_provider, rule_credential, selection, domain, present,
    credential_value, env_has; simpl.
  destruct (getenv env "DEEPGRAM_API_KEY") as [dg |]; simpl; [| reflexivity].
  destruct (String.eqb dg EmptyString); simpl; [reflexivity |].
  destruct (getenv env "OPENAI_API_KEY") as [sk |]; simpl; [| reflexivity].
  destruct (String.eqb sk EmptyString); reflexivity.
Qed.

(** * Further properties *)

(** X1. [validate_config] returns normally exactly when the three
    selections are in their domains and every rule that applies has its
    credential present: a normal return certifies the configuration. *)
Theorem validate_config_returns_iff (c : Config) :
  run validate_config c = (inr tt, c) <->
  (forall f, in_domain c f)
  /\ (forall r, In r rules -> applies c r ->
                exists s, credential_value c (rule_credential r) = Some s
                          /\ s <> EmptyString).
Proof.
  rewrite run_validate_config_pass_iff. split; intros [Hdom Hcred]; (split; [exact Hdom |]).
  - intros r Hr Ha. apply present_true. auto.
  - intros r Hr Ha. apply present_true. auto.
Qed.

Lemma validate_config_returns_iff_witness :
  (forall f, in_domain piper_setup f)
  /\ (forall r, In r rules -> applies piper_setup r ->
                exists s, credential_value piper_setup (rule_credential r) = Some s
                          /\ s <> EmptyString).
Proof.
  apply (proj1 (validate_config_returns_iff piper_setup)). reflexivity.
Defined.

(** X2. Whatever [validate_config] raises is a [ValueError], never an
    [AttributeError]: either the invalid-selection error of the first
    out-of-domain field, or, with all selections in domain, the
    missing-credential error of a violated rule of the table. *)
Theorem validate_config_raises_only (c : Config) (e : exn) :
  fst (run validate_config c) = inl e ->
  (exists msg, e = ValueError msg)
  /\ ((exists f, ~ in_domain c f
                 /\ (forall g, field_index g < field_index f -> in_domain c g)
                 /\ e = InvalidProviderSelection f)
      \/ ((forall f, in_domain c f)
          /\ exists r, In r rules /\ violated c r /\ e = rule_error r)).
Proof.
  rewrite run_validate_config, first_error_checks. cbn [fst].
  destruct (first_invalid c) as [f |] eqn:Ef.
  - intro H. inversion H; subst e. split; [eexists; reflexivity |].
    left. exists f. destruct (proj1 (first_invalid_some c f) Ef). auto.
  - destruct (first_violated c) as [r |] eqn:Er; simpl; [| discriminate].
    intro H. inversion H; subst e. split; [eexists; reflexivity |].
    right. split; [exact (first_invalid_none_inv c Ef) |].
    exists r. destruct (find_some _ _ Er) as [Hin Hv].
    split; [exact Hin |]. split; [apply violatedb_true, Hv | reflexivity].
Qed.

Lemma validate_config_raises_only_witness :
  (exists msg, rule_error (Response, "groq", Groq) = ValueError msg)
  /\ ((exists f, ~ in_domain groq_response_no_key f
                 /\ (forall g, field_index g < field_index f ->
                               in_domain groq_response_no_key g)
                 /\ rule_error (Response, "groq", Groq) = InvalidProviderSelection f)
      \/ ((forall f, in_domain groq_response_no_key f)
          /\ exists r, In r rules /\ violated groq_response_no_key r
                       /\ rule_error (Response, "groq", Groq) = rule_error r)).
Proof.
  apply (validate_config_raises_only groq_response_no_key). reflexivity.
Defined.

(** X3. When all five credentials are present, the outcome is decided by
    the domains alone: the routine returns normally if and only if the
    three selections are in domain, and otherwise raises the error of the
    first out-of-domain field. *)
Theorem validate_config_all_credentials (c : Config) :
  (forall k, present c k = true) ->
  run validate_config c
  = (match first_invalid c with
     | Some f => inl (InvalidProviderSelection f)
     | None => inr tt
     end, c)
  /\ (run validate_config c = (inr tt, c) <-> forall f, in_domain c f).
Proof.
  intro Hall.
  assert (Hv : first_violated c = None).
  { apply first_violated_none. intros r _. apply not_violated_present. auto. }
  assert (E : run validate_config c
              = (match first_invalid c with
                 | Some f => inl (InvalidProviderSelection f)
                 | None => inr tt
                 end, c)).
  { rewrite run_validate_config, first_error_checks, Hv.
    destruct (first_invalid c); reflexivity. }
  split; [exact E |]. rewrite E.
  destruct (first_invalid c) as [f |] eqn:Ef.
  - split; [discriminate |]. intro Hdom. exfalso.
    destruct (proj1 (first_invalid_some c f) Ef) as [Hn _]. exact (Hn (Hdom f)).
  - split; [intros _; exact (first_invalid_none_inv c Ef) | reflexivity].
Qed.

Lemma validate_config_all_credentials_witness :
  run validate_config azure_transcription
  = (inl (InvalidProviderSelection Transcription), azure_transcription).
Proof.
  apply (proj1 (validate_config_all_credentials azure_transcription
                  (fun k => match k with
                            | OpenAI | Groq | Deepgram | ElevenLabs | Cartesia => eq_refl
                            end))).
Defined.

(** X4. Setting more credentials never breaks a configuration: if the
    routine returns normally on a registry, it returns normally on every
    registry with the same selections in which every credential that was
    present is still present. *)
Theorem validate_config_more_credentials (c c' : Config) :
  (forall f, selection c' f = selection c f) ->
  (forall k, present c k = true -> present c' k = true) ->
  run validate_config c = (inr tt, c) ->
  run validate_config c' = (inr tt, c').
Proof.
  intros Hs Hp H. apply run_validate_config_pass_iff in H. destruct H as [Hdom Hcred].
  apply run_validate_config_pass.
  - intro f. unfold in_domain. rewrite Hs. apply Hdom.
  - intros r Hr Ha. apply Hp, Hcred; [exact Hr |].
    unfold applies in *. now rewrite <- Hs.
Qed.

Lemma validate_config_more_credentials_witness :
  run validate_config (load all_keys_env) = (inr tt, load all_keys_env).
Proof.
  apply (validate_config_more_credentials (load two_keys_env) (load all_keys_env)).
  - intros []; reflexivity.
  - intros [] H; (reflexivity || discriminate H).
  - reflexivity.
Defined.

(** X5. On a freshly loaded registry the outcome depends on two
    environment variables only.  The routine returns normally when
    DEEPGRAM_API_KEY and OPENAI_API_KEY are both set to non-empty texts;
    it reports DEEPGRAM_API_KEY when that one is unset or empty, whatever
    OPENAI_API_KEY is, and OPENAI_API_KEY otherwise.  Binding any other
    variable, TRANSCRIPTION_MODEL, RESPONSE_MODEL and TTS_MODEL included,
    changes nothing. *)
Theorem validate_config_after_load (env : environ) :
  run validate_config (load env) =
  (if env_has env "DEEPGRAM_API_KEY"
   then if env_has env "OPENAI_API_KEY"
        then inr tt
        else inl (ValueError "OPENAI_API_KEY is required for openai models")
   else inl (ValueError "DEEPGRAM_API_KEY is required for deepgram models"),
   load env)
  /\ (forall name value : string,
        name <> "DEEPGRAM_API_KEY" -> name <> "OPENAI_API_KEY" ->
        fst (run validate_config (load ((name, value) :: env)))
        = fst (run validate_config (load env))).
Proof.
  split; [apply run_validate_config_load |].
  intros name value Hd Ho. rewrite !run_validate_config_load. cbn [fst].
  unfold env_has.
  rewrite (getenv_other env name value "DEEPGRAM_API_KEY"),
    (getenv_other env name value "OPENAI_API_KEY"); congruence.
Qed.

Lemma validate_config_after_load_witness :
  fst (run validate_config (load (("TRANSCRIPTION_MODEL", "whisper") :: two_keys_env)))
  = fst (run validate_config (load two_keys_env)).
Proof.
  apply (proj2 (validate_config_after_load two_keys_env)); discriminate.
Defined.





(** X8. Both helpers and [getattr] leave the registry untouched for every
    argument, also when they raise, an [AttributeError] included. *)
Theorem helpers_read_only (c : Config) (a v k : string) (options : list string) :
  snd (run (getattr a) c) = c
  /\ snd (run (_validate_model a options) c) = c
  /\ snd (run (_validate_api_key a v k) c) = c.
Proof.
  split; [apply read_only_getattr |].
  split; [apply read_only_validate_model | apply read_only_validate_api_key].
Qed.

(** X9. The two helpers never raise the same [ValueError]: for all
    arguments and registries, the message of [_validate_model] ends in a
    closing bracket and that of [_validate_api_key] in the letter s, so a
    caller can tell the two kinds of failure apart. *)
Theorem helper_errors_differ (c c' : Config) (attribute : string)
    (valid_options : list string) (model_attr model_value api_key_attr m m' : string) :
  fst (run (_validate_model attribute valid_options) c) = inl (ValueError m) ->
  fst (run (_validate_api_key model_attr model_value api_key_attr) c')
  = inl (ValueError m') ->
  last_char m = Some "]"%char /\ last_char m' = Some "s"%char /\ m <> m'.
Proof.
  rewrite run_validate_model_any, run_validate_api_key_any. cbn [fst].
  intros H H'.
  assert (Em : last_char m = Some "]"%char).
  { destruct (assoc attribute (attributes c)) as [v |]; [| discriminate].
    destruct (py_in v (map VStr valid_options)); [discriminate |].
    inversion H. apply last_char_invalid. }
  assert (Em' : last_char m' = Some "s"%char).
  { destruct (assoc model_attr (attributes c')) as [x |]; [| discriminate].
    destruct (py_eq x (VStr model_value)); [| discriminate].
    destruct (assoc api_key_attr (attributes c')) as [y |]; [| discriminate].
    destruct (truthy y); [discriminate |].
    inversion H'. apply last_char_required. }
  split; [exact Em |]. split; [exact Em' |].
  intro Heq. rewrite Heq, Em' in Em. discriminate.
Qed.

Lemma helper_errors_differ_witness :
  last_char "Invalid TTS_MODEL. Must be one of []" = Some "]"%char
  /\ last_char "OPENAI_API_KEY is required for openai models" = Some "s"%char
  /\ "Invalid TTS_MODEL. Must be one of []"
     <> "OPENAI_API_KEY is required for openai models".
Proof.
  apply (helper_errors_differ (load no_env) (load no_env) "TTS_MODEL" []
           "TTS_MODEL" "openai" "OPENAI_API_KEY"); reflexivity.
Defined.

(** X10. A missing-credential error tells the provider value, not the
    field: two registries, all selections in domain, whose first violated
    rules name the same provider value get the same error, even when the
    rules belong to different fields. *)
Theorem missing_credential_error_by_provider (c c' : Config) (r r' : rule) :
  (forall f, in_domain c f) ->
  (forall f, in_domain c' f) ->
  first_violated c = Some r ->
  first_violated c' = Some r' ->
  rule_provider r = rule_provider r' ->
  fst (run validate_config c) = fst (run validate_config c').
Proof.
  intros Hd Hd' Hr Hr' Hp.
  rewrite !run_validate_config, !first_error_checks.
  rewrite (first_invalid_none c Hd), (first_invalid_none c' Hd'), Hr, Hr'.
  cbn [fst option_map outcome]. unfold rule_error.
  destruct (find_some _ _ Hr) as [Hin _]. destruct (find_some _ _ Hr') as [Hin' _].
  now rewrite (provider_fixes_credential r r' Hin Hin' Hp), Hp.
Qed.

Lemma missing_credential_error_by_provider_witness :
  rule_field (Transcription, "openai", OpenAI) <> rule_field (Response, "openai", OpenAI)
  /\ fst (run validate_config openai_transcription_only)
     = fst (run validate_config openai_response_only).
Proof.
  split; [discriminate |].
  apply (missing_credential_error_by_provider
           openai_transcription_only openai_response_only
           (Transcription, "openai", OpenAI) (Response, "openai", OpenAI)).
  - intros []; in_domain_now.
  - intros []; in_domain_now.
  - reflexivity.
  - reflexivity.
  - reflexivity.
Defined.

(** X11. No rule of the table is dead: for each of the nine rules there is
    a registry with all selections in domain on which the routine raises
    the error of that rule. *)
Theorem every_rule_fires (r : rule) :
  In r rules ->
  (forall f, in_domain (trigger r) f)
  /\ run validate_config (trigger r) = (inl (rule_error r), trigger r).
Proof.
  intro Hr. split_in Hr; (split; [intros []; in_domain_now | reflexivity]).
Qed.

Lemma every_rule_fires_witness :
  (forall f, in_domain (trigger (Tts, "cartesia", Cartesia)) f)
  /\ run validate_config (trigger (Tts, "cartesia", Cartesia))
     = (inl (ValueError "CARTESIA_API_KEY is required for cartesia models"),
        trigger (Tts, "cartesia", Cartesia)).
Proof.
  apply (every_rule_fires (Tts, "cartesia", Cartesia)). simpl. tauto.
Defined.

(** X12. The routine tests whether a credential is non-empty and never
    looks at its content: two registries with the same selections in which
    the same credentials are present get the same outcome. *)
Theorem validate_config_presence_only (c c' : Config) :
  (forall f, selection c f = selection c' f) ->
  (forall k, present c k = present c' k) ->
  fst (run validate_config c) = fst (run validate_config c').
Proof.
  intros Hs Hp. rewrite !run_validate_config. cbn [fst].
  now rewrite (first_error_presence c c' checks Hs Hp).
Qed.

Lemma validate_config_presence_only_witness :
  (forall k, credential_value (load all_keys_env) k
             <> credential_value (load other_keys_env) k)
  /\ fst (run validate_config (load all_keys_env))
     = fst (run validate_config (load other_keys_env)).
Proof.
  split; [intros []; discriminate |].
  apply (validate_config_presence_only (load all_keys_env) (load other_keys_env)).
  - intros []; reflexivity.
  - intros []; reflexivity.
Defined.
